(** * IAPV kinetic core: steering, flocking and crowd layer

    A shallow embedding of the force-based steering engine
    ([common/math_utils.hpp], [common/agent.hpp],
    [locomotion/steering_behaviors.{hpp,cpp}], [crowds/flocking.{hpp,cpp}])
    and the properties its design document states about it.

    The C++ code computes in [float].  The embedding is written once, over
    an interface [FloatOps] of the operations the code applies to [float]
    values, and is read at two instances:

    - [binary32]: IEEE 754 single precision with round to nearest, ties to
      even, signed zeros, infinities and NaN ([SpecFloat] at precision 24
      and maximal exponent 128).  This is what the program computes when
      every operation is rounded to [float] on its own (no extended
      intermediate precision, no fused multiply-add, no fast-math); it is
      executable, so concrete runs are evaluated inside the kernel.
    - [exact]: the real numbers, the arithmetic the design document reasons
      in.  It is used to state what holds "up to rounding".

    Objects reached through pointers ([Agent*], [Boid*]) live in a store (a
    list, the pointer being the index), so that aliasing and pointer
    identity ([neighbor == agent], [otherBoid.get() != boid]) are modelled
    as the code has them.  A pointer outside the store is a dangling
    pointer, undefined behaviour in C++: loops skip it and [update] leaves
    the store as it is.  The [int] counters of the loops are unbounded
    integers: they count neighbours, and cannot reach 2^31 in a run.

    [WanderBehavior] draws from [common::Random], whose implementation is
    not part of the sources; a controller's behaviours are modelled by
    their [calculate] function, whatever it is, so statements about the
    controller cover it. *)

From Stdlib Require Import ZArith Reals Lra Psatz Bool.
From Stdlib Require Import Floats.SpecFloat.
From stdpp Require Import base option list gmap strings.

(** ** The [float] interface *)

Class FloatOps (F : Type) : Type := {
  fadd : F -> F -> F;
  fsub : F -> F -> F;
  fmul : F -> F -> F;
  fdiv : F -> F -> F;
  fsqrt : F -> F;                 (* std::sqrt *)
  fltb : F -> F -> bool;          (* a < b *)
  fleb : F -> F -> bool;          (* a <= b *)
  of_int : Z -> F;                (* int / size_t converted to float *)
  flt : Z -> positive -> F        (* the literal n/d, e.g. 0.016f = flt 16 1000 *)
}.

Declare Scope float_scope.
Delimit Scope float_scope with flt.
Infix "+" := fadd : float_scope.
Infix "-" := fsub : float_scope.
Infix "*" := fmul : float_scope.
Infix "/" := fdiv : float_scope.
Notation "a <? b" := (fltb a b) : float_scope.
Notation "a >? b" := (fltb b a) : float_scope.
Notation "a <=? b" := (fleb a b) : float_scope.

(** IEEE 754 binary32. *)
Module B32.
Definition prec : Z := 24.
Definition emax : Z := 128.
Definition of_Z (n : Z) : spec_float := binary_normalize prec emax n 0 false.
Definition add := SFadd prec emax.
Definition sub := SFsub prec emax.
Definition mul := SFmul prec emax.
Definition div := SFdiv prec emax.
Definition sqrt := SFsqrt prec emax.
(* A decimal literal is rounded to the nearest binary32: both integers are
   exactly representable for every literal of the program, and the
   division rounds correctly. *)
Definition lit (n : Z) (d : positive) : spec_float := div (of_Z n) (of_Z (Zpos d)).
Definition is_nan (a : spec_float) : bool :=
  match a with S754_nan => true | _ => false end.
Definition is_finite (a : spec_float) : bool :=
  match a with S754_zero _ | S754_finite _ _ _ => true | _ => false end.
Definition is_zero (a : spec_float) : bool :=
  match a with S754_zero _ => true | _ => false end.
Definition valid (a : spec_float) : bool := valid_binary prec emax a.
End B32.

#[export] Instance binary32 : FloatOps spec_float := {|
  fadd := B32.add; fsub := B32.sub; fmul := B32.mul; fdiv := B32.div;
  fsqrt := B32.sqrt; fltb := SFltb; fleb := SFleb;
  of_int := B32.of_Z; flt := B32.lit
|}.

(** Exact real arithmetic. *)
Module Exact.
Definition ltb (a b : R) : bool := if Rlt_dec a b then true else false.
Definition leb (a b : R) : bool := if Rle_dec a b then true else false.
Definition lit (n : Z) (d : positive) : R := (IZR n / IZR (Zpos d))%R.
End Exact.

#[export] Instance exact : FloatOps R := {|
  fadd := Rplus; fsub := Rminus; fmul := Rmult; fdiv := Rdiv;
  fsqrt := sqrt; fltb := Exact.ltb; fleb := Exact.leb;
  of_int := IZR; flt := Exact.lit
|}.

(** ** Vector kernel ([common/math_utils.hpp]) *)

Module Vector2D.
Record t (F : Type) : Type := mk { x : F; y : F }.
Arguments mk {F} _ _.
Arguments x {F} _.
Arguments y {F} _.

Section Ops.
Context {F : Type} `{FloatOps F}.
Local Open Scope float_scope.

Definition zero : t F := mk (of_int 0) (of_int 0).
Definition add (a b : t F) : t F := mk (x a + x b) (y a + y b).
Definition sub (a b : t F) : t F := mk (x a - x b) (y a - y b).
Definition scale (a : t F) (scalar : F) : t F := mk (x a * scalar) (y a * scalar).
Definition magnitude (a : t F) : F := fsqrt (x a * x a + y a * y a).
Definition normalized (a : t F) : t F :=
  let mag := magnitude a in
  if mag >? of_int 0 then mk (x a / mag) (y a / mag)
  else mk (of_int 0) (of_int 0).
Definition dot (a b : t F) : F := x a * x b + y a * y b.
End Ops.
End Vector2D.

Module Vector3D.
Record t (F : Type) : Type := mk { x : F; y : F; z : F }.
Arguments mk {F} _ _ _.
Arguments x {F} _.
Arguments y {F} _.
Arguments z {F} _.

Section Ops.
Context {F : Type} `{FloatOps F}.
Local Open Scope float_scope.

Definition zero : t F := mk (of_int 0) (of_int 0) (of_int 0).
Definition add (a b : t F) : t F := mk (x a + x b) (y a + y b) (z a + z b).
Definition sub (a b : t F) : t F := mk (x a - x b) (y a - y b) (z a - z b).
Definition scale (a : t F) (scalar : F) : t F :=
  mk (x a * scalar) (y a * scalar) (z a * scalar).
Definition magnitude (a : t F) : F :=
  fsqrt (x a * x a + y a * y a + z a * z a).
Definition normalized (a : t F) : t F :=
  let mag := magnitude a in
  if mag >? of_int 0 then mk (x a / mag) (y a / mag) (z a / mag)
  else mk (of_int 0) (of_int 0) (of_int 0).
Definition dot (a b : t F) : F := x a * x b + y a * y b + z a * z b.
Definition cross (a b : t F) : t F :=
  mk (y a * z b - z a * y b) (z a * x b - x a * z b) (x a * y b - y a * x b).
End Ops.
End Vector3D.

(** A pointer to an object of a store is its index in the store. *)
Abbreviation ptr := nat (only parsing).

(** ** Agent state ([common/agent.hpp]) *)

Module Agent.
(** The types the repository stores in the [std::any] memory. *)
Inductive ty : Type := TInt | TFloat | TBool | TString | TVector2D | TVector3D.

#[global] Instance ty_eq_dec : EqDecision ty.
Proof. solve_decision. Defined.

Definition denote (F : Type) (T : ty) : Type :=
  match T with
  | TInt => Z
  | TFloat => F
  | TBool => bool
  | TString => string
  | TVector2D => Vector2D.t F
  | TVector3D => Vector3D.t F
  end.

(** [std::any]: empty, or a value together with its type. *)
Inductive any (F : Type) : Type :=
| any_empty
| any_of (T : ty) (v : denote F T).
Arguments any_empty {F}.
Arguments any_of {F} _ _.

Inductive exn : Type := bad_any_cast.

Inductive outcome (A : Type) : Type :=
| returns (a : A)
| throws (e : exn).
Arguments returns {A} _.
Arguments throws {A} _.

(** [std::any_cast<T>(a)] on a value: the held object when its type is
    exactly [T], [bad_any_cast] otherwise. *)
Definition any_cast {F : Type} (T : ty) (a : any F) : outcome (denote F T) :=
  match a with
  | any_empty => throws bad_any_cast
  | any_of T' v =>
      match decide (T' = T) with
      | left e => returns (eq_rect T' (denote F) v T e)
      | right _ => throws bad_any_cast
      end
  end.

Record t (F : Type) : Type := mk {
  id_ : string;
  position_ : Vector3D.t F;
  velocity_ : Vector3D.t F;
  health_ : F;
  energy_ : F;
  memory_ : gmap string (any F)
}.
Arguments mk {F} _ _ _ _ _ _.
Arguments id_ {F} _.
Arguments position_ {F} _.
Arguments velocity_ {F} _.
Arguments health_ {F} _.
Arguments energy_ {F} _.
Arguments memory_ {F} _.

Section Methods.
Context {F : Type} `{FloatOps F}.
Local Open Scope float_scope.

(* std::min(a, b) = (b < a) ? b : a,  std::max(a, b) = (a < b) ? b : a *)
Definition fmin (a b : F) : F := if b <? a then b else a.
Definition fmax (a b : F) : F := if a <? b then b else a.

Definition new (id : string) (position : Vector3D.t F) : t F :=
  mk id position Vector3D.zero (flt 100 1) (flt 100 1) ∅.

Definition setPosition (a : t F) (position : Vector3D.t F) : t F :=
  mk (id_ a) position (velocity_ a) (health_ a) (energy_ a) (memory_ a).
Definition setVelocity (a : t F) (velocity : Vector3D.t F) : t F :=
  mk (id_ a) (position_ a) velocity (health_ a) (energy_ a) (memory_ a).
Definition setHealth (a : t F) (health : F) : t F :=
  mk (id_ a) (position_ a) (velocity_ a)
     (fmax (flt 0 1) (fmin (flt 100 1) health)) (energy_ a) (memory_ a).
Definition setEnergy (a : t F) (energy : F) : t F :=
  mk (id_ a) (position_ a) (velocity_ a) (health_ a)
     (fmax (flt 0 1) (fmin (flt 100 1) energy)) (memory_ a).

(** [memory_[key] = value] *)
Definition setMemory (T : ty) (a : t F) (key : string) (value : denote F T) : t F :=
  mk (id_ a) (position_ a) (velocity_ a) (health_ a) (energy_ a)
     (<[key := any_of T value]> (memory_ a)).

(** [getMemory<T>(key, defaultValue)], in state-passing style: the
    result of the call and the agent after it.  [memory_.find(key)] is
    a lookup; the [try] block catches [bad_any_cast]. *)
Definition getMemory (T : ty) (a : t F) (key : string) (defaultValue : denote F T)
  : outcome (denote F T) * t F :=
  match memory_ a !! key with
  | Some it =>
      match any_cast T it with
      | returns v => (returns v, a)
      | throws bad_any_cast => (returns defaultValue, a)
      end
  | None => (returns defaultValue, a)
  end.

Definition hasMemory (a : t F) (key : string) : bool :=
  bool_decide (is_Some (memory_ a !! key)).
End Methods.
End Agent.

(** ** Steering behaviours and controller ([locomotion/steering_behaviors]) *)

Module Steering.
Import Vector3D.

(** [SteeringBehavior]: the virtual [calculate] is a field.  It receives
    the store, the [agent] pointer with the object it points to, and the
    [neighbors] pointers. *)
Record SteeringBehavior (F : Type) : Type := mkBehavior {
  calculate : list (Agent.t F) -> ptr -> Agent.t F -> list ptr -> Vector3D.t F;
  weight : F;
  enabled : bool
}.
Arguments mkBehavior {F} _ _ _.
Arguments calculate {F} _ _ _ _ _.
Arguments weight {F} _.
Arguments enabled {F} _.

Record Obstacle (F : Type) : Type := mkObstacle {
  position : Vector3D.t F;
  radius : F
}.
Arguments mkObstacle {F} _ _.
Arguments position {F} _.
Arguments radius {F} _.

Record SteeringController (F : Type) : Type := mkController {
  agent_ : ptr;
  maxSpeed_ : F;
  maxForce_ : F;
  behaviors_ : list (SteeringBehavior F)
}.
Arguments mkController {F} _ _ _ _.
Arguments agent_ {F} _.
Arguments maxSpeed_ {F} _.
Arguments maxForce_ {F} _.
Arguments behaviors_ {F} _.

Section Behaviors.
Context {F : Type} `{FloatOps F}.
Local Open Scope float_scope.
Abbreviation heap := (list (Agent.t F)).
Abbreviation getPosition := Agent.position_.
Abbreviation getVelocity := Agent.velocity_.


Definition Flee_calculate (threat_ : Vector3D.t F)
    (h : heap) (agent : ptr) (self : Agent.t F) (neighbors : list ptr) : Vector3D.t F :=
  let desired := sub (getPosition self) threat_ in
  let desired := scale (normalized desired) (flt 10 1) in
  sub desired (getVelocity self).

(** One iteration of the loop of [SeparationBehavior::calculate]. *)
Definition Separation_step (separationRadius_ : F) (h : heap) (agent : ptr)
    (self : Agent.t F) (acc : Vector3D.t F * Z) (neighbor : ptr) : Vector3D.t F * Z :=
  let '(steer, count) := acc in
  if decide (neighbor = agent) then (steer, count) else
  match h !! neighbor with
  | None => (steer, count)
  | Some nb =>
      let distance := magnitude (sub (getPosition self) (getPosition nb)) in
      if (distance >? of_int 0) && (distance <? separationRadius_) then
        let diff := sub (getPosition self) (getPosition nb) in
        let diff := normalized diff in
        let diff := scale diff (flt 1 1 / distance) in
        (add steer diff, (count + 1)%Z)
      else (steer, count)
  end.

Definition Separation_calculate (separationRadius_ : F)
    (h : heap) (agent : ptr) (self : Agent.t F) (neighbors : list ptr) : Vector3D.t F :=
  let '(steer, count) :=
    foldl (Separation_step separationRadius_ h agent self) (zero, 0%Z) neighbors in
  if (count >? 0)%Z then
    let steer := scale steer (flt 1 1 / of_int count) in
    let steer := scale (normalized steer) (flt 10 1) in
    sub steer (getVelocity self)
  else steer.

Definition Alignment_step (alignmentRadius_ : F) (h : heap) (agent : ptr)
    (self : Agent.t F) (acc : Vector3D.t F * Z) (neighbor : ptr) : Vector3D.t F * Z :=
  let '(sum, count) := acc in
  if decide (neighbor = agent) then (sum, count) else
  match h !! neighbor with
  | None => (sum, count)
  | Some nb =>
      let distance := magnitude (sub (getPosition self) (getPosition nb)) in
      if (distance >? of_int 0) && (distance <? alignmentRadius_) then
        (add sum (getVelocity nb), (count + 1)%Z)
      else (sum, count)
  end.

Definition Alignment_calculate (alignmentRadius_ : F)
    (h : heap) (agent : ptr) (self : Agent.t F) (neighbors : list ptr) : Vector3D.t F :=
  let '(sum, count) :=
    foldl (Alignment_step alignmentRadius_ h agent self) (zero, 0%Z) neighbors in
  if (count >? 0)%Z then
    let sum := scale sum (flt 1 1 / of_int count) in
    let sum := scale (normalized sum) (flt 10 1) in
    sub sum (getVelocity self)
  else zero.

Definition Cohesion_step (cohesionRadius_ : F) (h : heap) (agent : ptr)
    (self : Agent.t F) (acc : Vector3D.t F * Z) (neighbor : ptr) : Vector3D.t F * Z :=
  let '(sum, count) := acc in
  if decide (neighbor = agent) then (sum, count) else
  match h !! neighbor with
  | None => (sum, count)
  | Some nb =>
      let distance := magnitude (sub (getPosition self) (getPosition nb)) in
      if (distance >? of_int 0) && (distance <? cohesionRadius_) then
        (add sum (getPosition nb), (count + 1)%Z)
      else (sum, count)
  end.

Definition Cohesion_calculate (cohesionRadius_ : F)
    (h : heap) (agent : ptr) (self : Agent.t F) (neighbors : list ptr) : Vector3D.t F :=
  let '(sum, count) :=
    foldl (Cohesion_step cohesionRadius_ h agent self) (zero, 0%Z) neighbors in
  if (count >? 0)%Z then
    let sum := scale sum (flt 1 1 / of_int count) in
    let desired := sub sum (getPosition self) in
    let desired := scale (normalized desired) (flt 10 1) in
    sub desired (getVelocity self)
  else zero.

(** First loop of [AvoidanceBehavior::calculate]: other agents. *)
Definition Avoidance_agent_step (avoidanceRadius_ : F) (h : heap) (agent : ptr)
    (self : Agent.t F) (steer : Vector3D.t F) (neighbor : ptr) : Vector3D.t F :=
  if decide (neighbor = agent) then steer else
  match h !! neighbor with
  | None => steer
  | Some nb =>
      let distance := magnitude (sub (getPosition self) (getPosition nb)) in
      if (distance >? of_int 0) && (distance <? avoidanceRadius_) then
        let diff := sub (getPosition self) (getPosition nb) in
        let diff := normalized diff in
        let diff := scale diff (avoidanceRadius_ / distance) in
        add steer diff
      else steer
  end.

(** Second loop: registered obstacles. *)
Definition Avoidance_obstacle_step (avoidanceRadius_ : F) (self : Agent.t F)
    (steer : Vector3D.t F) (obstacle : Obstacle F) : Vector3D.t F :=
  let distance := magnitude (sub (getPosition self) (position obstacle)) in
  let totalRadius := radius obstacle + flt 1 1 in
  if distance <? totalRadius + avoidanceRadius_ then
    let diff := sub (getPosition self) (position obstacle) in
    let diff := normalized diff in
    let diff := scale diff ((totalRadius + avoidanceRadius_) / distance) in
    add steer diff
  else steer.

Definition Avoidance_calculate (avoidanceRadius_ : F) (obstacles_ : list (Obstacle F))
    (h : heap) (agent : ptr) (self : Agent.t F) (neighbors : list ptr) : Vector3D.t F :=
  let steer := foldl (Avoidance_agent_step avoidanceRadius_ h agent self) zero neighbors in
  let steer := foldl (Avoidance_obstacle_step avoidanceRadius_ self) steer obstacles_ in
  if magnitude steer >? of_int 0 then
    let steer := scale (normalized steer) (flt 10 1) in
    sub steer (getVelocity self)
  else steer.

Definition FleeBehavior (threat : Vector3D.t F) : SteeringBehavior F :=
  mkBehavior (Flee_calculate threat) (flt 1 1) true.
Definition SeparationBehavior (separationRadius : F) : SteeringBehavior F :=
  mkBehavior (Separation_calculate separationRadius) (flt 1 1) true.
Definition AlignmentBehavior (alignmentRadius : F) : SteeringBehavior F :=
  mkBehavior (Alignment_calculate alignmentRadius) (flt 1 1) true.
Definition CohesionBehavior (cohesionRadius : F) : SteeringBehavior F :=
  mkBehavior (Cohesion_calculate cohesionRadius) (flt 1 1) true.
Definition AvoidanceBehavior (avoidanceRadius : F) (obstacles : list (Obstacle F))
  : SteeringBehavior F :=
  mkBehavior (Avoidance_calculate avoidanceRadius obstacles) (flt 1 1) true.

(** [SteeringController::truncate] *)
Definition truncate (vector : Vector3D.t F) (maxLength : F) : Vector3D.t F :=
  let magnitude := magnitude vector in
  if magnitude >? maxLength then scale (normalized vector) maxLength
  else vector.

(** The loop of [SteeringController::update] over [behaviors_]. *)
Definition totalForce (c : SteeringController F) (h : heap) (self : Agent.t F)
    (neighbors : list ptr) : Vector3D.t F :=
  foldl (fun totalForce behavior =>
           if enabled behavior then
             let force := calculate behavior h (agent_ c) self neighbors in
             add totalForce (scale force (weight behavior))
           else totalForce)
        zero (behaviors_ c).

(** The force that [update] integrates: [totalForce] after
    [truncate(totalForce, maxForce_)]. *)
Definition steeringForce (c : SteeringController F) (h : heap) (self : Agent.t F)
    (neighbors : list ptr) : Vector3D.t F :=
  truncate (totalForce c h self neighbors) (maxForce_ c).

(** [SteeringController::update] on the object [agent_] points to. *)
Definition update_agent (c : SteeringController F) (h : heap) (self : Agent.t F)
    (deltaTime : F) (neighbors : list ptr) : Agent.t F :=
  let totalForce := steeringForce c h self neighbors in
  let newVelocity := add (getVelocity self) (scale totalForce deltaTime) in
  let newVelocity := truncate newVelocity (maxSpeed_ c) in
  let self := Agent.setVelocity self newVelocity in
  let newPosition := add (getPosition self) (scale newVelocity deltaTime) in
  Agent.setPosition self newPosition.

(** [SteeringController::update]: the store after the call.  A dangling
    [agent_] is undefined behaviour in C++; the store is then left as
    it is. *)
Definition update (c : SteeringController F) (h : heap)
    (deltaTime : F) (neighbors : list ptr) : heap :=
  match h !! agent_ c with
  | Some self => <[agent_ c := update_agent c h self deltaTime neighbors]> h
  | None => h
  end.
End Behaviors.
End Steering.

(** ** Boids and the crowd layer ([crowds/flocking]) *)

Module Boid.
Import Vector3D.

(** [class Boid : public Agent]: the base object and the members the
    class adds. *)
Record t (F : Type) : Type := mk {
  agent : Agent.t F;
  neighbors_ : list ptr;
  separationWeight_ : F;
  alignmentWeight_ : F;
  cohesionWeight_ : F;
  separationRadius_ : F;
  alignmentRadius_ : F;
  cohesionRadius_ : F
}.
Arguments mk {F} _ _ _ _ _ _ _ _.
Arguments agent {F} _.
Arguments neighbors_ {F} _.
Arguments separationWeight_ {F} _.
Arguments alignmentWeight_ {F} _.
Arguments cohesionWeight_ {F} _.
Arguments separationRadius_ {F} _.
Arguments alignmentRadius_ {F} _.
Arguments cohesionRadius_ {F} _.

Section Methods.
Context {F : Type} `{FloatOps F}.
Local Open Scope float_scope.
Abbreviation heap := (list (t F)).

Definition getPosition (b : t F) : Vector3D.t F := Agent.position_ (agent b).
Definition getVelocity (b : t F) : Vector3D.t F := Agent.velocity_ (agent b).

Definition with_agent (b : t F) (a : Agent.t F) : t F :=
  mk a (neighbors_ b) (separationWeight_ b) (alignmentWeight_ b) (cohesionWeight_ b)
     (separationRadius_ b) (alignmentRadius_ b) (cohesionRadius_ b).
Definition setPosition (b : t F) (position : Vector3D.t F) : t F :=
  with_agent b (Agent.setPosition (agent b) position).
Definition setVelocity (b : t F) (velocity : Vector3D.t F) : t F :=
  with_agent b (Agent.setVelocity (agent b) velocity).
Definition setNeighbors (b : t F) (neighbors : list ptr) : t F :=
  mk (agent b) neighbors (separationWeight_ b) (alignmentWeight_ b) (cohesionWeight_ b)
     (separationRadius_ b) (alignmentRadius_ b) (cohesionRadius_ b).

(** The constructor, with the member initialisers of [flocking.hpp]. *)
Definition new (id : string) (position : Vector3D.t F) : t F :=
  mk (Agent.new id position) []
     (flt 15 10) (flt 1 1) (flt 1 1) (flt 2 1) (flt 4 1) (flt 6 1).

Definition separation_step (h : heap) (self : t F)
    (acc : Vector3D.t F * Z) (neighbor : ptr) : Vector3D.t F * Z :=
  let '(steer, count) := acc in
  match h !! neighbor with
  | None => (steer, count)
  | Some nb =>
      let distance := magnitude (sub (getPosition self) (getPosition nb)) in
      if (distance >? of_int 0) && (distance <? separationRadius_ self) then
        let diff := sub (getPosition self) (getPosition nb) in
        let diff := normalized diff in
        let diff := scale diff (flt 1 1 / distance) in
        (add steer diff, (count + 1)%Z)
      else (steer, count)
  end.

Definition calculateSeparation (h : heap) (self : t F) : Vector3D.t F :=
  let '(steer, count) := foldl (separation_step h self) (zero, 0%Z) (neighbors_ self) in
  if (count >? 0)%Z then
    let steer := scale steer (flt 1 1 / of_int count) in
    scale (normalized steer) (flt 10 1)
  else steer.

Definition alignment_step (h : heap) (self : t F)
    (acc : Vector3D.t F * Z) (neighbor : ptr) : Vector3D.t F * Z :=
  let '(average, count) := acc in
  match h !! neighbor with
  | None => (average, count)
  | Some nb =>
      let distance := magnitude (sub (getPosition self) (getPosition nb)) in
      if (distance >? of_int 0) && (distance <? alignmentRadius_ self) then
        (add average (getVelocity nb), (count + 1)%Z)
      else (average, count)
  end.

Definition calculateAlignment (h : heap) (self : t F) : Vector3D.t F :=
  let '(average, count) := foldl (alignment_step h self) (zero, 0%Z) (neighbors_ self) in
  if (count >? 0)%Z then
    let average := scale average (flt 1 1 / of_int count) in
    let average := scale (normalized average) (flt 10 1) in
    sub average (getVelocity self)
  else zero.

Definition cohesion_step (h : heap) (self : t F)
    (acc : Vector3D.t F * Z) (neighbor : ptr) : Vector3D.t F * Z :=
  let '(center, count) := acc in
  match h !! neighbor with
  | None => (center, count)
  | Some nb =>
      let distance := magnitude (sub (getPosition self) (getPosition nb)) in
      if (distance >? of_int 0) && (distance <? cohesionRadius_ self) then
        (add center (getPosition nb), (count + 1)%Z)
      else (center, count)
  end.

Definition calculateCohesion (h : heap) (self : t F) : Vector3D.t F :=
  let '(center, count) := foldl (cohesion_step h self) (zero, 0%Z) (neighbors_ self) in
  if (count >? 0)%Z then
    let center := scale center (flt 1 1 / of_int count) in
    let desired := sub center (getPosition self) in
    let desired := scale (normalized desired) (flt 10 1) in
    sub desired (getVelocity self)
  else zero.

(** The force [Boid::update] integrates: the weighted sum, unclamped. *)
Definition totalForce (h : heap) (self : t F) : Vector3D.t F :=
  let separation := scale (calculateSeparation h self) (separationWeight_ self) in
  let alignment := scale (calculateAlignment h self) (alignmentWeight_ self) in
  let cohesion := scale (calculateCohesion h self) (cohesionWeight_ self) in
  add (add separation alignment) cohesion.

(** The speed cap of [Boid::update]: [float maxSpeed = 8.0f]. *)
Definition maxSpeed : F := flt 8 1.

Definition update (h : heap) (self : t F) (deltaTime : F) : t F :=
  let totalForce := totalForce h self in
  let acceleration := totalForce in
  let newVelocity := add (getVelocity self) (scale acceleration deltaTime) in
  let newVelocity :=
    if magnitude newVelocity >? maxSpeed then scale (normalized newVelocity) maxSpeed
    else newVelocity in
  let self := setVelocity self newVelocity in
  let newPosition := add (getPosition self) (scale newVelocity deltaTime) in
  setPosition self newPosition.
End Methods.
End Boid.

Module CrowdSimulation.
Import Vector3D.

Record t (F : Type) : Type := mk {
  boids_ : list (Boid.t F);
  neighborRadius_ : F;
  boundaryMin_ : Vector3D.t F;
  boundaryMax_ : Vector3D.t F
}.
Arguments mk {F} _ _ _ _.
Arguments boids_ {F} _.
Arguments neighborRadius_ {F} _.
Arguments boundaryMin_ {F} _.
Arguments boundaryMax_ {F} _.

Section Methods.
Context {F : Type} `{FloatOps F}.
Local Open Scope float_scope.

(** [CrowdSimulation() = default], with the initialisers of the header. *)
Definition new : t F :=
  mk [] (flt 10 1)
     (Vector3D.mk (of_int (-50)) (of_int (-50)) (of_int (-50)))
     (Vector3D.mk (of_int 50) (of_int 50) (of_int 50)).

Definition with_boids (sim : t F) (boids : list (Boid.t F)) : t F :=
  mk boids (neighborRadius_ sim) (boundaryMin_ sim) (boundaryMax_ sim).
Definition addBoid (sim : t F) (boid : Boid.t F) : t F :=
  with_boids sim (boids_ sim ++ [boid]).
Definition setNeighborRadius (sim : t F) (radius : F) : t F :=
  mk (boids_ sim) radius (boundaryMin_ sim) (boundaryMax_ sim).
Definition setBoundary (sim : t F) (min max : Vector3D.t F) : t F :=
  mk (boids_ sim) (neighborRadius_ sim) min max.

(** One iteration of the loop of [findNeighbors] over [boids_]:
    [otherBoid] is the object at pointer [other]. *)
Definition findNeighbors_step (neighborRadius : F) (boid : ptr) (this : Boid.t F)
    (neighbors : list ptr) (entry : ptr * Boid.t F) : list ptr :=
  let '(other, otherBoid) := entry in
  if decide (other ≠ boid) then
    let distance := magnitude (sub (Boid.getPosition this) (Boid.getPosition otherBoid)) in
    if distance <=? neighborRadius then neighbors ++ [other]
    else neighbors
  else neighbors.

Definition findNeighbors (sim : t F) (boid : ptr) : list ptr :=
  match boids_ sim !! boid with
  | Some this =>
      foldl (findNeighbors_step (neighborRadius_ sim) boid this) []
            (imap (fun other otherBoid => (other, otherBoid)) (boids_ sim))
  | None => []
  end.

(** The six boundary tests of [applyBoundaryForces]. *)
Definition boundaryForce (sim : t F) (position : Vector3D.t F) : Vector3D.t F :=
  let boundaryForce := Vector3D.zero in
  let margin := flt 5 1 in
  let forceStrength := flt 20 1 in
  let boundaryForce :=
    if x position <? x (boundaryMin_ sim) + margin
    then Vector3D.mk (x boundaryForce + forceStrength) (y boundaryForce) (z boundaryForce)
    else boundaryForce in
  let boundaryForce :=
    if x position >? x (boundaryMax_ sim) - margin
    then Vector3D.mk (x boundaryForce - forceStrength) (y boundaryForce) (z boundaryForce)
    else boundaryForce in
  let boundaryForce :=
    if y position <? y (boundaryMin_ sim) + margin
    then Vector3D.mk (x boundaryForce) (y boundaryForce + forceStrength) (z boundaryForce)
    else boundaryForce in
  let boundaryForce :=
    if y position >? y (boundaryMax_ sim) - margin
    then Vector3D.mk (x boundaryForce) (y boundaryForce - forceStrength) (z boundaryForce)
    else boundaryForce in
  let boundaryForce :=
    if z position <? z (boundaryMin_ sim) + margin
    then Vector3D.mk (x boundaryForce) (y boundaryForce) (z boundaryForce + forceStrength)
    else boundaryForce in
  let boundaryForce :=
    if z position >? z (boundaryMax_ sim) - margin
    then Vector3D.mk (x boundaryForce) (y boundaryForce) (z boundaryForce - forceStrength)
    else boundaryForce in
  boundaryForce.

Definition applyBoundaryForces (sim : t F) (boid : Boid.t F) : Boid.t F :=
  let position := Boid.getPosition boid in
  let velocity := Boid.getVelocity boid in
  let boundaryForce := boundaryForce sim position in
  if magnitude boundaryForce >? of_int 0 then
    let newVelocity := add velocity (scale boundaryForce (flt 16 1000)) in
    Boid.setVelocity boid newVelocity
  else boid.

(** First loop of [update]: every boid, in turn, gets the result of
    [findNeighbors] on the store as it is at that point. *)
Definition rebuild_step (sim : t F) (boid : ptr) : t F :=
  match boids_ sim !! boid with
  | Some this =>
      let neighbors := findNeighbors sim boid in
      with_boids sim (<[boid := Boid.setNeighbors this neighbors]> (boids_ sim))
  | None => sim
  end.

Definition rebuild (sim : t F) : t F :=
  foldl rebuild_step sim (seq 0 (length (boids_ sim))).

(** Second loop of [update]: [boid->update(deltaTime)] followed by
    [applyBoundaryForces(boid.get())], in turn.  A boid reads its
    neighbours through their pointers, hence in the state the store has
    when its turn comes. *)
Definition move_step (deltaTime : F) (sim : t F) (boid : ptr) : t F :=
  match boids_ sim !! boid with
  | Some this =>
      let this := Boid.update (boids_ sim) this deltaTime in
      let this := applyBoundaryForces sim this in
      with_boids sim (<[boid := this]> (boids_ sim))
  | None => sim
  end.

Definition move (sim : t F) (deltaTime : F) : t F :=
  foldl (move_step deltaTime) sim (seq 0 (length (boids_ sim))).

Definition update (sim : t F) (deltaTime : F) : t F :=
  move (rebuild sim) deltaTime.
End Methods.
End CrowdSimulation.

Module EmergentBehaviorDetector.
Import Vector3D.

Inductive BehaviorPattern : Type :=
| Flocking | Schooling | Swarming | Milling | Splitting | Unknown.

Section Methods.
Context {F : Type} `{FloatOps F}.
Local Open Scope float_scope.

(** [boids.size()] converted to [float]. *)
Definition size (boids : list (Boid.t F)) : F := of_int (Z.of_nat (length boids)).

Definition averageVelocity (boids : list (Boid.t F)) : Vector3D.t F :=
  let avgVelocity :=
    foldl (fun avgVelocity boid => add avgVelocity (Boid.getVelocity boid)) zero boids in
  scale avgVelocity (flt 1 1 / size boids).

Definition alignment_step (avgVelocity : Vector3D.t F)
    (totalAlignment : F) (boid : Boid.t F) : F :=
  let vel := Boid.getVelocity boid in
  if (magnitude vel >? of_int 0) && (magnitude avgVelocity >? of_int 0) then
    let dot := dot (normalized vel) (normalized avgVelocity) in
    totalAlignment + (dot + flt 1 1) / flt 2 1
  else totalAlignment.

Definition calculateAlignmentLevel (boids : list (Boid.t F)) : F :=
  match boids with
  | [] => flt 0 1
  | _ =>
      let avgVelocity := averageVelocity boids in
      let totalAlignment := foldl (alignment_step avgVelocity) (flt 0 1) boids in
      totalAlignment / size boids
  end.

Definition centerOfMass (boids : list (Boid.t F)) : Vector3D.t F :=
  let center := foldl (fun center boid => add center (Boid.getPosition boid)) zero boids in
  scale center (flt 1 1 / size boids).

Definition calculateCohesionLevel (boids : list (Boid.t F)) : F :=
  match boids with
  | [] => flt 0 1
  | _ =>
      let center := centerOfMass boids in
      let avgDistance :=
        foldl (fun avgDistance boid =>
                 avgDistance + magnitude (sub (Boid.getPosition boid) center))
              (flt 0 1) boids in
      let avgDistance := avgDistance / size boids in
      flt 1 1 / (flt 1 1 + avgDistance * flt 1 10)
  end.

Definition averageSpeed (boids : list (Boid.t F)) : F :=
  let avgSpeed :=
    foldl (fun avgSpeed boid => avgSpeed + magnitude (Boid.getVelocity boid))
          (flt 0 1) boids in
  avgSpeed / size boids.

Definition calculateVelocityVariance (boids : list (Boid.t F)) : F :=
  match boids with
  | [] => flt 0 1
  | _ =>
      let avgSpeed := averageSpeed boids in
      let variance :=
        foldl (fun variance boid =>
                 let speed := magnitude (Boid.getVelocity boid) in
                 variance + (speed - avgSpeed) * (speed - avgSpeed))
              (flt 0 1) boids in
      let variance := variance / size boids in
      fsqrt variance / (avgSpeed + flt 1 10)
  end.

Definition detectPattern (boids : list (Boid.t F)) : BehaviorPattern :=
  if (length boids <? 3)%nat then Unknown else
  let alignmentLevel := calculateAlignmentLevel boids in
  let cohesionLevel := calculateCohesionLevel boids in
  let velocityVariance := calculateVelocityVariance boids in
  if (alignmentLevel >? flt 8 10) && (cohesionLevel >? flt 7 10)
     && (velocityVariance <? flt 3 10) then Flocking
  else if (cohesionLevel >? flt 8 10) && (velocityVariance >? flt 6 10) then Swarming
  else if (alignmentLevel <? flt 3 10) && (velocityVariance >? flt 7 10) then Milling
  else if cohesionLevel <? flt 4 10 then Splitting
  else Schooling.
End Methods.
End EmergentBehaviorDetector.

(** ** Auxiliary definitions for the statements *)

Abbreviation f32 := spec_float (only parsing).

(** The sign of a float: [Some s], or [None] for NaN. *)
Definition sign_of (a : spec_float) : option bool :=
  match a with
  | S754_zero s | S754_infinity s | S754_finite s _ _ => Some s
  | S754_nan => None
  end.

(** The square, as [magnitude()] writes it: [x * x]. *)
Definition sq (prec emax : Z) (x : spec_float) : spec_float := SFmul prec emax x x.
Abbreviation sq32 := (sq B32.prec B32.emax).

Definition no_nan3 (v : Vector3D.t f32) : bool :=
  negb (B32.is_nan (Vector3D.x v)) && negb (B32.is_nan (Vector3D.y v))
  && negb (B32.is_nan (Vector3D.z v)).
Definition no_nan2 (v : Vector2D.t f32) : bool :=
  negb (B32.is_nan (Vector2D.x v)) && negb (B32.is_nan (Vector2D.y v)).


(** The test of [findNeighbors] on an [otherBoid] that is not [boid]:
    [distance <= neighborRadius_]. *)
Definition within {F : Type} `{FloatOps F} (neighborRadius : F) (this other : Boid.t F) : bool :=
  fleb (Vector3D.magnitude (Vector3D.sub (Boid.getPosition this) (Boid.getPosition other)))
       neighborRadius.

(** The test both separation loops apply to a neighbour:
    [distance > 0 && distance < separationRadius_]. *)
Definition separates (self nb : Boid.t f32) : bool :=
  let distance :=
    Vector3D.magnitude (Vector3D.sub (Boid.getPosition self) (Boid.getPosition nb)) in
  SFltb (of_int 0) distance && SFltb distance (Boid.separationRadius_ self).

Definition finite3 (v : Vector3D.t f32) : bool :=
  B32.is_finite (Vector3D.x v) && B32.is_finite (Vector3D.y v)
  && B32.is_finite (Vector3D.z v).

(** Two floats that compare equal and behave alike: the same float, or two
    zeros (of any sign). *)
Definition same (a b : f32) : Prop :=
  a = b \/ (B32.is_zero a = true /\ B32.is_zero b = true).



(** The boundary force on one axis, case by case: a fixed positive
    component (20) strictly within the margin (5) of the minimum [lo], a
    fixed negative one strictly within the margin of the maximum [hi]. *)
Definition axis_force (p lo hi : f32) : f32 :=
  let near_min := SFltb p (B32.add lo (B32.of_Z 5)) in
  let near_max := SFltb (B32.sub hi (B32.of_Z 5)) p in
  match near_min, near_max with
  | true, false => B32.of_Z 20
  | false, true => B32.of_Z (-20)
  | true, true => S754_zero false        (* the two components cancel *)
  | false, false => S754_zero false
  end.

(** The fixed factor of [applyBoundaryForces]: [0.016f]. *)
Definition containment_dt : f32 := B32.lit 16 1000.


(** *** Concrete inputs *)

Module Scenario.
(** A binary32 vector with integer coordinates. *)
Definition V (a b c : Z) : Vector3D.t f32 :=
  Vector3D.mk (B32.of_Z a) (B32.of_Z b) (B32.of_Z c).

Definition nan_vector : Vector3D.t f32 :=
  Vector3D.mk S754_nan (S754_zero false) (S754_zero false).

(** (2^-100, +0, -0): the square of the first coordinate underflows to 0. *)
Definition tiny_vector : Vector3D.t f32 :=
  Vector3D.mk (S754_finite false 8388608 (-123)) (S754_zero false) (S754_zero true).

Definition animated_agent : Agent.t f32 :=
  Agent.setMemory Agent.TInt (Agent.new "walker" Vector3D.zero) "animation_type" 1%Z.

(** A boid of [flocking.hpp]'s defaults at [p], moving at [v]. *)
Definition boid (id : string) (p v : Vector3D.t f32) : Boid.t f32 :=
  Boid.setVelocity (Boid.new id p) v.

(** Two distinct boids at the same place. *)
Definition coincident : CrowdSimulation.t f32 :=
  CrowdSimulation.addBoid
    (CrowdSimulation.addBoid CrowdSimulation.new (boid "a" (V 1 2 3) (V 0 0 0)))
    (boid "b" (V 1 2 3) (V 0 0 0)).

(** Two boids one unit apart; the second moves away from the first. *)
Definition pair : list (Boid.t f32) :=
  [ Boid.setNeighbors (boid "a" (V 0 0 0) (V 2 0 0)) [1; 0];
    Boid.setNeighbors (boid "b" (V 1 0 0) (V (-1) 0 0)) [0] ].

(** The default simulation with one boid at [(x0, 0, 0)], at rest. *)
Definition lone (x0 : Z) : CrowdSimulation.t f32 :=
  CrowdSimulation.addBoid CrowdSimulation.new (boid "lone" (V x0 0 0) (V 0 0 0)).









(** An agent at rest at (1, 2, 3), an obstacle of radius 1 registered at
    the same point, and a second agent at the same point. *)
Definition blocked : Agent.t f32 := Agent.new "blocked" (V 1 2 3).
Definition twin : Agent.t f32 := Agent.new "twin" (V 1 2 3).
Definition obstacle_here : Steering.Obstacle f32 :=
  Steering.mkObstacle (V 1 2 3) (B32.of_Z 1).

(** Three boids on the x axis at 0, 5 and 20, with the default
    [neighborRadius_] of 10: the first two are neighbours, the third has
    none. *)
Definition line : CrowdSimulation.t f32 :=
  CrowdSimulation.addBoid
    (CrowdSimulation.addBoid
       (CrowdSimulation.addBoid CrowdSimulation.new (boid "a" (V 0 0 0) (V 1 0 0)))
       (boid "b" (V 5 0 0) (V 0 1 0)))
    (boid "c" (V 20 0 0) (V 0 0 1)).
End Scenario.

(** ** Facts on IEEE 754 arithmetic ([SpecFloat]) *)

Section SpecFloatFacts.
Variables prec emax : Z.

Lemma shr_1_nonneg mrs : (0 <= shr_m mrs)%Z -> (0 <= shr_m (shr_1 mrs))%Z.
Proof.
  destruct mrs as [m r s]; simpl.
  destruct m as [|p|p]; simpl; try lia; destruct p; simpl; lia.
Qed.

Lemma iter_shr_1_nonneg p : forall mrs,
  (0 <= shr_m mrs)%Z -> (0 <= shr_m (SpecFloat.iter_pos shr_1 p mrs))%Z.
Proof.
  induction p as [p IH|p IH|]; intros mrs Hm; simpl.
  - apply IH, IH, shr_1_nonneg, Hm.
  - apply IH, IH, Hm.
  - apply shr_1_nonneg, Hm.
Qed.

Lemma shr_record_of_loc_m m l : shr_m (shr_record_of_loc m l) = m.
Proof. destruct l as [|[]]; reflexivity. Qed.

Lemma shr_fexp_nonneg m e l :
  (0 <= m)%Z -> (0 <= shr_m (fst (shr_fexp prec emax m e l)))%Z.
Proof.
  intros Hm. unfold shr_fexp, shr.
  destruct (fexp prec emax (Zdigits2 m + e) - e)%Z; simpl;
    rewrite ?shr_record_of_loc_m; try assumption.
  apply iter_shr_1_nonneg. rewrite shr_record_of_loc_m. assumption.
Qed.

Lemma round_nearest_even_nonneg m l :
  (0 <= m)%Z -> (0 <= round_nearest_even m l)%Z.
Proof.
  intros Hm. unfold round_nearest_even.
  destruct l as [|[]]; try lia. destruct (Z.even m); lia.
Qed.

(** Rounding a non-negative mantissa keeps the sign and gives no NaN. *)
Lemma binary_round_aux_sign s m e l :
  (0 <= m)%Z -> sign_of (binary_round_aux prec emax s m e l) = Some s.
Proof.
  intros Hm. unfold binary_round_aux.
  pose proof (shr_fexp_nonneg m e l Hm) as H1.
  destruct (shr_fexp prec emax m e l) as [mrs' e']. simpl in H1.
  pose proof (shr_fexp_nonneg _ e' loc_Exact
                (round_nearest_even_nonneg _ (loc_of_shr_record mrs') H1)) as H2.
  destruct (shr_fexp prec emax _ e' loc_Exact) as [mrs'' e'']. simpl in H2.
  destruct (shr_m mrs'') as [|p|p]; try reflexivity; try lia.
  destruct (Z.leb e'' (emax - prec)); reflexivity.
Qed.

Lemma binary_round_aux_opp s m e l :
  binary_round_aux prec emax (negb s) m e l = SFopp (binary_round_aux prec emax s m e l).
Proof.
  unfold binary_round_aux.
  destruct (shr_fexp prec emax m e l) as [mrs' e'].
  destruct (shr_fexp prec emax _ e' loc_Exact) as [mrs'' e''].
  destruct (shr_m mrs''); try reflexivity.
  destruct (Z.leb e'' (emax - prec)); reflexivity.
Qed.

Lemma binary_round_sign s m e : sign_of (binary_round prec emax s m e) = Some s.
Proof.
  unfold binary_round. destruct (shl_align m e _) as [mz ez].
  apply binary_round_aux_sign. lia.
Qed.

Lemma binary_round_opp s m e :
  binary_round prec emax (negb s) m e = SFopp (binary_round prec emax s m e).
Proof.
  unfold binary_round. destruct (shl_align m e _) as [mz ez].
  apply binary_round_aux_opp.
Qed.

Lemma binary_normalize_opp m e :
  m <> 0%Z ->
  binary_normalize prec emax (- m) e false = SFopp (binary_normalize prec emax m e false).
Proof.
  intros Hm. destruct m as [|p|p]; [congruence| |]; simpl.
  - apply (binary_round_opp false).
  - rewrite <- (binary_round_opp true). reflexivity.
Qed.

(** [x - x] is [+0], or NaN when [x] is not finite. *)
Lemma SFsub_diag x :
  SFsub prec emax x x = S754_zero false \/ SFsub prec emax x x = S754_nan.
Proof.
  destruct x as [[]|[]| |s m e]; simpl; auto.
  left. rewrite Z.sub_diag. reflexivity.
Qed.

(** [y - x] is the opposite of [x - y], the two being [+0] when equal. *)
Lemma SFsub_antisym x y :
  SFsub prec emax y x = SFopp (SFsub prec emax x y) \/
  (SFsub prec emax y x = S754_zero false /\ SFsub prec emax x y = S754_zero false).
Proof.
  destruct x as [sx|sx| |sx mx ex], y as [sy|sy| |sy my ey]; simpl;
    try (destruct sx; simpl; auto; fail);
    try (destruct sy; simpl; auto; fail);
    try (destruct sx, sy; simpl; auto; fail).
  - left. reflexivity.
  - rewrite (Z.min_comm ey ex).
    set (a := cond_Zopp sx _). set (b := cond_Zopp sy _).
    destruct (Z.eq_dec (a - b)%Z 0%Z) as [E|E].
    + right. replace (b - a)%Z with 0%Z by lia. rewrite E. auto.
    + left. replace (b - a)%Z with (- (a - b))%Z by lia.
      apply binary_normalize_opp, E.
Qed.

Lemma sq_opp x : sq prec emax (SFopp x) = sq prec emax x.
Proof. destruct x as [[]|[]| |[] m e]; reflexivity. Qed.


Lemma sq_sign x : sign_of (sq prec emax x) = match x with S754_nan => None | _ => Some false end.
Proof.
  destruct x as [[]|[]| |s m e]; try reflexivity.
  unfold sq, SFmul. rewrite binary_round_aux_sign by lia. destruct s; reflexivity.
Qed.

Lemma SFadd_sign_nonneg a b :
  sign_of a = Some false -> sign_of b = Some false ->
  sign_of (SFadd prec emax a b) = Some false.
Proof.
  destruct a as [sa|sa| |sa ma ea], b as [sb|sb| |sb mb eb]; simpl;
    intros Ha Hb; try discriminate; simplify_eq; try reflexivity.
  unfold binary_normalize.
  destruct (_ + _)%Z eqn:E; try reflexivity.
  - apply binary_round_sign.
  - unfold cond_Zopp in E. lia.
Qed.

Lemma SFadd_nan_l b : SFadd prec emax S754_nan b = S754_nan.
Proof. reflexivity. Qed.
Lemma SFadd_nan_r a : SFadd prec emax a S754_nan = S754_nan.
Proof. destruct a; reflexivity. Qed.

Lemma SFsqrt_sign_nonneg a :
  sign_of a = Some false -> sign_of (SFsqrt prec emax a) = Some false.
Proof.
  destruct a as [sa|sa| |sa m e]; simpl; intros Ha; try discriminate;
    simplify_eq; try reflexivity.
  unfold SFsqrt_core_binary.
  set (m' := match _ with Zpos _ => _ | Z0 => _ | Zneg _ => _ end).
  assert (Hm' : (0 <= m')%Z).
  { subst m'. destruct (_ - _)%Z; try lia. apply Z.shiftl_nonneg. lia. }
  pose proof (Z.sqrtrem_spec m' Hm') as Hs.
  destruct (Z.sqrtrem m') as [q r].
  apply binary_round_aux_sign. lia.
Qed.


End SpecFloatFacts.

(** ** Facts on the vector kernel at [binary32] *)


Lemma of_int_0 : of_int (F := f32) 0 = S754_zero false.
Proof. reflexivity. Qed.

Lemma magnitude3_eq (v : Vector3D.t f32) :
  Vector3D.magnitude v =
  B32.sqrt (B32.add (B32.add (sq32 (Vector3D.x v)) (sq32 (Vector3D.y v)))
                    (sq32 (Vector3D.z v))).
Proof. reflexivity. Qed.

Lemma magnitude2_eq (v : Vector2D.t f32) :
  Vector2D.magnitude v =
  B32.sqrt (B32.add (sq32 (Vector2D.x v)) (sq32 (Vector2D.y v))).
Proof. reflexivity. Qed.

(** Comparisons against [+0]. *)
Lemma ltb_zero_of_sign a :
  sign_of a = Some false \/ sign_of a = None -> SFltb a (S754_zero false) = false.
Proof. destruct a as [[]|[]| |[] m e]; simpl; intros [?|?]; (reflexivity || congruence). Qed.

Lemma leb_zero_of_sign a :
  sign_of a = Some false -> SFleb (S754_zero false) a = true.
Proof. destruct a as [[]|[]| |[] m e]; simpl; intros ?; (reflexivity || congruence). Qed.

Lemma gtb_zero_false a :
  SFeqb a (S754_zero false) = true -> SFltb (S754_zero false) a = false.
Proof. destruct a as [[]|[]| |[] m e]; cbv; congruence. Qed.

(** The sum of squares under the root. *)
Lemma sum_sq_sign3 x y z :
  B32.is_nan x = false -> B32.is_nan y = false -> B32.is_nan z = false ->
  sign_of (B32.add (B32.add (sq32 x) (sq32 y)) (sq32 z)) = Some false.
Proof.
  intros Hx Hy Hz.
  repeat apply SFadd_sign_nonneg; rewrite sq_sign.
  - destruct x; simpl in *; congruence.
  - destruct y; simpl in *; congruence.
  - destruct z; simpl in *; congruence.
Qed.

Lemma sign_or_nan_add a b :
  (sign_of a = Some false \/ sign_of a = None) ->
  (sign_of b = Some false \/ sign_of b = None) ->
  sign_of (B32.add a b) = Some false \/ sign_of (B32.add a b) = None.
Proof.
  intros [Ha|Ha] [Hb|Hb].
  - left. apply SFadd_sign_nonneg; assumption.
  - right. destruct b; try discriminate. unfold B32.add. rewrite SFadd_nan_r. reflexivity.
  - right. destruct a; try discriminate. reflexivity.
  - right. destruct a; try discriminate. reflexivity.
Qed.

Lemma sign_or_nan_sq x : sign_of (sq32 x) = Some false \/ sign_of (sq32 x) = None.
Proof. rewrite sq_sign. destruct x; auto. Qed.

Lemma sign_or_nan_sqrt a :
  (sign_of a = Some false \/ sign_of a = None) ->
  sign_of (B32.sqrt a) = Some false \/ sign_of (B32.sqrt a) = None.
Proof.
  intros [Ha|Ha].
  - left. apply SFsqrt_sign_nonneg, Ha.
  - right. destruct a; try discriminate. reflexivity.
Qed.

(** [magnitude()] is never negative: its sign bit is clear, or it is NaN. *)
Lemma magnitude3_sign (v : Vector3D.t f32) :
  sign_of (Vector3D.magnitude v) = Some false \/ sign_of (Vector3D.magnitude v) = None.
Proof.
  rewrite magnitude3_eq.
  apply sign_or_nan_sqrt, sign_or_nan_add; [apply sign_or_nan_add|];
    apply sign_or_nan_sq.
Qed.

Lemma magnitude2_sign (v : Vector2D.t f32) :
  sign_of (Vector2D.magnitude v) = Some false \/ sign_of (Vector2D.magnitude v) = None.
Proof.
  rewrite magnitude2_eq.
  apply sign_or_nan_sqrt, sign_or_nan_add; apply sign_or_nan_sq.
Qed.

Lemma magnitude3_sign_no_nan (v : Vector3D.t f32) :
  no_nan3 v = true -> sign_of (Vector3D.magnitude v) = Some false.
Proof.
  unfold no_nan3. rewrite !andb_true_iff, !negb_true_iff. intros [[Hx Hy] Hz].
  rewrite magnitude3_eq. apply SFsqrt_sign_nonneg, sum_sq_sign3; assumption.
Qed.

Lemma magnitude2_sign_no_nan (v : Vector2D.t f32) :
  no_nan2 v = true -> sign_of (Vector2D.magnitude v) = Some false.
Proof.
  unfold no_nan2. rewrite !andb_true_iff, !negb_true_iff. intros [Hx Hy].
  rewrite magnitude2_eq. apply SFsqrt_sign_nonneg, SFadd_sign_nonneg; rewrite sq_sign.
  - destruct (Vector2D.x v); simpl in *; congruence.
  - destruct (Vector2D.y v); simpl in *; congruence.
Qed.

(** The distance does not depend on the order of its two end points. *)
Lemma sq_sub_comm a b : sq32 (B32.sub a b) = sq32 (B32.sub b a).
Proof.
  destruct (SFsub_antisym B32.prec B32.emax a b) as [E|[E1 E2]]; unfold B32.sub.
  - rewrite E. apply eq_sym, sq_opp.
  - rewrite E1, E2. reflexivity.
Qed.

Lemma distance_comm (p q : Vector3D.t f32) :
  Vector3D.magnitude (Vector3D.sub p q) = Vector3D.magnitude (Vector3D.sub q p).
Proof.
  rewrite !magnitude3_eq. unfold Vector3D.sub; simpl.
  rewrite (sq_sub_comm (Vector3D.x p)), (sq_sub_comm (Vector3D.y p)),
          (sq_sub_comm (Vector3D.z p)).
  reflexivity.
Qed.

(** An object is at distance [+0] (or NaN) of itself: never [> 0]. *)
Lemma distance_self (p : Vector3D.t f32) :
  SFltb (S754_zero false) (Vector3D.magnitude (Vector3D.sub p p)) = false.
Proof.
  rewrite magnitude3_eq. unfold Vector3D.sub; simpl. unfold B32.sub.
  destruct (SFsub_diag B32.prec B32.emax (Vector3D.x p)) as [-> | ->],
           (SFsub_diag B32.prec B32.emax (Vector3D.y p)) as [-> | ->],
           (SFsub_diag B32.prec B32.emax (Vector3D.z p)) as [-> | ->];
    reflexivity.
Qed.

(** ** The vector kernel: [normalized()] and [magnitude()] *)

(** C9, counterexample: the vector (NaN, 0, 0) has magnitude NaN, and
    [magnitude() >= 0] is false for it. *)
Lemma magnitude_nan_counterexample :
  Vector3D.magnitude Scenario.nan_vector = S754_nan /\
  SFleb (of_int 0) (Vector3D.magnitude Scenario.nan_vector) = false /\
  SFltb (Vector3D.magnitude Scenario.nan_vector) (of_int 0) = false.
Proof. repeat split; reflexivity. Qed.

(** C9, as amended: a 2D or 3D vector whose magnitude compares equal to
    zero is normalized to the zero vector (+0 in every component, hence
    neither NaN nor infinite); the magnitude of any vector is never
    [< 0]; and it is [>= 0] whenever no component of the vector is NaN. *)
Theorem normalized_zero_and_magnitude_sign :
  (forall v : Vector3D.t f32,
      SFeqb (Vector3D.magnitude v) (of_int 0) = true ->
      Vector3D.normalized v
      = Vector3D.mk (S754_zero false) (S754_zero false) (S754_zero false)) /\
  (forall v : Vector2D.t f32,
      SFeqb (Vector2D.magnitude v) (of_int 0) = true ->
      Vector2D.normalized v = Vector2D.mk (S754_zero false) (S754_zero false)) /\
  (forall v : Vector3D.t f32, SFltb (Vector3D.magnitude v) (of_int 0) = false) /\
  (forall v : Vector2D.t f32, SFltb (Vector2D.magnitude v) (of_int 0) = false) /\
  (forall v : Vector3D.t f32,
      no_nan3 v = true -> SFleb (of_int 0) (Vector3D.magnitude v) = true) /\
  (forall v : Vector2D.t f32,
      no_nan2 v = true -> SFleb (of_int 0) (Vector2D.magnitude v) = true).
Proof.
  rewrite of_int_0. repeat split.
  - intros v Hv. unfold Vector3D.normalized. cbn [fltb binary32].
    rewrite of_int_0, (gtb_zero_false _ Hv). reflexivity.
  - intros v Hv. unfold Vector2D.normalized. cbn [fltb binary32].
    rewrite of_int_0, (gtb_zero_false _ Hv). reflexivity.
  - intros v. apply ltb_zero_of_sign, magnitude3_sign.
  - intros v. apply ltb_zero_of_sign, magnitude2_sign.
  - intros v Hv. apply leb_zero_of_sign, magnitude3_sign_no_nan, Hv.
  - intros v Hv. apply leb_zero_of_sign, magnitude2_sign_no_nan, Hv.
Qed.

(** C9 at a vector whose square underflows, at a 2D zero vector, and at
    (3, -4, 12) and (3, -4). *)
Lemma normalized_zero_and_magnitude_sign_witness :
  Vector3D.normalized Scenario.tiny_vector
  = Vector3D.mk (S754_zero false) (S754_zero false) (S754_zero false) /\
  Vector2D.normalized (Vector2D.mk (S754_zero true) (S754_zero false))
  = Vector2D.mk (S754_zero false) (S754_zero false) /\
  SFleb (of_int 0) (Vector3D.magnitude (Vector3D.mk (of_int 3) (of_int (-4)) (of_int 12))) = true /\
  SFleb (of_int 0) (Vector2D.magnitude (Vector2D.mk (of_int 3) (of_int (-4)))) = true.
Proof.
  destruct normalized_zero_and_magnitude_sign as (H3 & H2 & _ & _ & N3 & N2).
  split; [apply H3; reflexivity|].
  split; [apply H2; reflexivity|].
  split; [apply N3; reflexivity|apply N2; reflexivity].
Defined.

(** ** The agent memory store *)

Section Memory.
Context {F : Type} `{FloatOps F}.

Lemma any_cast_same (T : Agent.ty) (v : Agent.denote F T) :
  Agent.any_cast T (Agent.any_of T v) = Agent.returns v.
Proof.
  unfold Agent.any_cast. destruct (decide (T = T)) as [e|n]; [|congruence].
  rewrite (proof_irrel e eq_refl). reflexivity.
Qed.

Lemma any_cast_other (T T' : Agent.ty) (v : Agent.denote F T') :
  T' <> T -> Agent.any_cast T (Agent.any_of T' v) = Agent.throws Agent.bad_any_cast.
Proof.
  intros Hne. unfold Agent.any_cast. destruct (decide (T' = T)); [congruence|reflexivity].
Qed.

(** C10: [getMemory<T>(key, defaultValue)] returns the stored value when
    the key is present with a value of exactly type [T]; it returns
    [defaultValue] when the key is absent and when the stored value has
    another type (or the stored [any] is empty); it never throws, and the
    agent (its memory store included) is the same after the call. *)
Theorem getMemory_spec (T : Agent.ty) (a : Agent.t F) (key : string)
    (defaultValue : Agent.denote F T) :
  (forall v : Agent.denote F T,
      Agent.memory_ a !! key = Some (Agent.any_of T v) ->
      Agent.getMemory T a key defaultValue = (Agent.returns v, a)) /\
  (Agent.memory_ a !! key = None ->
      Agent.getMemory T a key defaultValue = (Agent.returns defaultValue, a)) /\
  (forall (T' : Agent.ty) (v' : Agent.denote F T'),
      Agent.memory_ a !! key = Some (Agent.any_of T' v') -> T' <> T ->
      Agent.getMemory T a key defaultValue = (Agent.returns defaultValue, a)) /\
  (Agent.memory_ a !! key = Some Agent.any_empty ->
      Agent.getMemory T a key defaultValue = (Agent.returns defaultValue, a)) /\
  (exists v : Agent.denote F T,
      Agent.getMemory T a key defaultValue = (Agent.returns v, a)).
Proof.
  unfold Agent.getMemory. repeat split.
  - intros v ->. rewrite any_cast_same. reflexivity.
  - intros ->. reflexivity.
  - intros T' v' -> Hne. rewrite any_cast_other by assumption. reflexivity.
  - intros ->. reflexivity.
  - destruct (Agent.memory_ a !! key) as [it|]; [|eauto].
    destruct (Agent.any_cast T it) as [v|[]]; eauto.
Qed.
End Memory.

(** C10 on an agent whose memory holds the [int] 1 under
    ["animation_type"]: the stored value, the default for an absent key, and
    the default for a [float] request. *)
Lemma getMemory_spec_witness :
  Agent.getMemory Agent.TInt Scenario.animated_agent "animation_type" 0%Z
  = (Agent.returns 1%Z, Scenario.animated_agent) /\
  Agent.getMemory Agent.TInt Scenario.animated_agent "animation_time" 7%Z
  = (Agent.returns 7%Z, Scenario.animated_agent) /\
  Agent.getMemory Agent.TFloat Scenario.animated_agent "animation_type" (B32.of_Z 2)
  = (Agent.returns (B32.of_Z 2), Scenario.animated_agent).
Proof.
  split; [|split].
  - destruct (getMemory_spec Agent.TInt Scenario.animated_agent "animation_type" 0%Z)
      as (Hpresent & _).
    apply Hpresent. reflexivity.
  - destruct (getMemory_spec Agent.TInt Scenario.animated_agent "animation_time" 7%Z)
      as (_ & Habsent & _).
    apply Habsent. reflexivity.
  - destruct (getMemory_spec Agent.TFloat Scenario.animated_agent "animation_type" (B32.of_Z 2))
      as (_ & _ & Hother & _).
    apply (Hother Agent.TInt 1%Z); [reflexivity|discriminate].
Defined.

(** ** The neighbour rebuild of [CrowdSimulation] *)

Section NeighborRebuild.
Context {F : Type} {FO : FloatOps F}.

Lemma foldl_cons {A B : Type} (f : A -> B -> A) (a : A) (x : B) (l : list B) :
  foldl f a (x :: l) = foldl f (f a x) l.
Proof. reflexivity. Qed.


Lemma findNeighbors_step_elem (r : F) (i : nat) (this : Boid.t F)
    (acc : list nat) (k : nat) (b : Boid.t F) (j : nat) :
  j ∈ CrowdSimulation.findNeighbors_step r i this acc (k, b) <->
  j ∈ acc \/ (j = k /\ k <> i /\ within r this b = true).
Proof.
  unfold CrowdSimulation.findNeighbors_step, within.
  destruct (decide (k ≠ i)) as [Hne|Heq].
  - destruct (fleb _ r) eqn:E.
    + rewrite elem_of_app, list_elem_of_singleton. intuition congruence.
    + intuition congruence.
  - intuition congruence.
Qed.

Lemma findNeighbors_fold_elem (r : F) (i : nat) (this : Boid.t F)
    (l : list (nat * Boid.t F)) : forall (acc : list nat) (j : nat),
  j ∈ foldl (CrowdSimulation.findNeighbors_step r i this) acc l <->
  j ∈ acc \/ exists b, (j, b) ∈ l /\ j <> i /\ within r this b = true.
Proof.
  induction l as [|[k b] l IH]; intros acc j.
  - simpl. split; [auto|]. intros [?|(b & Hb & _)]; [done|]. by apply elem_of_nil in Hb.
  - rewrite foldl_cons, IH, findNeighbors_step_elem. split.
    + intros [[?|(-> & ? & ?)]|(b' & Hb' & ?)]; [by left| |].
      * right. exists b. split; [apply list_elem_of_here|done].
      * right. exists b'. split; [by apply list_elem_of_further|done].
    + intros [?|(b' & Hb' & Hne & Hw)]; [by left; left|].
      apply elem_of_cons in Hb' as [E|Hb'].
      * injection E as -> ->. left; right. done.
      * right. eauto.
Qed.

(** What [findNeighbors] returns for the boid at pointer [i]: the pointers
    [j] to the other objects of [boids_] (other by pointer identity) whose
    distance to it is at most [neighborRadius_]. *)
Lemma findNeighbors_elem (sim : CrowdSimulation.t F) (i j : nat) :
  j ∈ CrowdSimulation.findNeighbors sim i <->
  exists this other,
    CrowdSimulation.boids_ sim !! i = Some this /\
    CrowdSimulation.boids_ sim !! j = Some other /\
    j <> i /\
    within (CrowdSimulation.neighborRadius_ sim) this other = true.
Proof.
  unfold CrowdSimulation.findNeighbors.
  destruct (CrowdSimulation.boids_ sim !! i) as [this|] eqn:Hi.
  - rewrite findNeighbors_fold_elem. split.
    + intros [Hnil|(b & Hb & Hne & Hw)]; [by apply elem_of_nil in Hnil|].
      apply elem_of_lookup_imap in Hb as (k & y & E & Hk).
      injection E as -> ->. eauto 10.
    + intros (this' & other & E & Hj & Hne & Hw). injection E as <-.
      right. exists other. split; [|done].
      apply (elem_of_lookup_imap_2 (fun k b => (k, b))), Hj.
  - split; [intros Hnil; by apply elem_of_nil in Hnil|].
    intros (? & ? & ? & _); congruence.
Qed.

(** [findNeighbors] reads the positions and the radius, nothing else. *)
Lemma findNeighbors_fold_ext (r : F) (i : nat) (this this' : Boid.t F)
    (l l' : list (Boid.t F)) :
  Boid.getPosition this = Boid.getPosition this' ->
  Forall2 (fun b b' => Boid.getPosition b = Boid.getPosition b') l l' ->
  forall (g : nat -> nat) (acc : list nat),
    foldl (CrowdSimulation.findNeighbors_step r i this) acc
          (imap (fun k b => (g k, b)) l)
    = foldl (CrowdSimulation.findNeighbors_step r i this') acc
            (imap (fun k b => (g k, b)) l').
Proof.
  intros Hthis Hl. induction Hl as [|b b' l l' Hb Hl IH]; intros g acc; [done|].
  rewrite !imap_cons, !foldl_cons.
  replace (CrowdSimulation.findNeighbors_step r i this' acc (g 0, b'))
    with (CrowdSimulation.findNeighbors_step r i this acc (g 0, b)).
  - apply (IH (g ∘ S)).
  - unfold CrowdSimulation.findNeighbors_step. by rewrite Hthis, Hb.
Qed.

Lemma findNeighbors_ext (sim sim' : CrowdSimulation.t F) (i : nat) :
  CrowdSimulation.neighborRadius_ sim = CrowdSimulation.neighborRadius_ sim' ->
  Forall2 (fun b b' => Boid.getPosition b = Boid.getPosition b')
          (CrowdSimulation.boids_ sim) (CrowdSimulation.boids_ sim') ->
  CrowdSimulation.findNeighbors sim i = CrowdSimulation.findNeighbors sim' i.
Proof.
  intros Hr Hl. unfold CrowdSimulation.findNeighbors. rewrite Hr.
  destruct (CrowdSimulation.boids_ sim !! i) as [this|] eqn:Hi.
  - destruct (Forall2_lookup_l _ _ _ _ _ Hl Hi) as (this' & -> & Hp).
    apply (findNeighbors_fold_ext _ _ _ _ _ _ Hp Hl (fun k => k)).
  - assert (CrowdSimulation.boids_ sim' !! i = None) as ->; [|done].
    apply lookup_ge_None. apply lookup_ge_None in Hi.
    by rewrite <- (Forall2_length _ _ _ Hl).
Qed.
End NeighborRebuild.

(** ** The two phases of [CrowdSimulation::update] *)

Section Tick.
Context {F : Type} {FO : FloatOps F}.

(** The store after the first [n] iterations of the rebuild loop. *)
Lemma rebuild_prefix (sim : CrowdSimulation.t F) (n : nat) :
  n <= length (CrowdSimulation.boids_ sim) ->
  foldl CrowdSimulation.rebuild_step sim (seq 0 n)
  = CrowdSimulation.with_boids sim
      (imap (fun k b =>
               if decide (k < n)
               then Boid.setNeighbors b (CrowdSimulation.findNeighbors sim k)
               else b)
            (CrowdSimulation.boids_ sim)).
Proof.
  induction n as [|n IH]; intros Hn.
  - simpl. destruct sim as [l r mn mx]. unfold CrowdSimulation.with_boids; simpl.
    f_equal. apply list_eq. intros k. rewrite list_lookup_imap.
    destruct (l !! k); [simpl|done]. destruct (decide (k < 0)); [lia|done].
  - rewrite seq_S, foldl_snoc, IH by lia. simpl.
    set (cur := CrowdSimulation.with_boids sim _).
    destruct (lookup_lt_is_Some_2 (CrowdSimulation.boids_ sim) n) as [b Hb]; [lia|].
    unfold CrowdSimulation.rebuild_step.
    assert (Hcur : CrowdSimulation.boids_ cur !! n = Some b).
    { subst cur; simpl. rewrite list_lookup_imap, Hb. simpl.
      destruct (decide (n < n)); [lia|done]. }
    rewrite Hcur.
    assert (Hext : CrowdSimulation.findNeighbors cur n = CrowdSimulation.findNeighbors sim n).
    { apply findNeighbors_ext; [done|]. subst cur; simpl.
      apply Forall2_same_length_lookup. split; [by rewrite length_imap|].
      intros k b1 b2 H1 H2. rewrite list_lookup_imap, H2 in H1. simpl in H1.
      injection H1 as <-. by destruct (decide (k < n)). }
    rewrite Hext. subst cur. unfold CrowdSimulation.with_boids; simpl. f_equal.
    apply list_eq. intros k. rewrite list_lookup_imap.
    destruct (decide (k = n)) as [->|Hne].
    + rewrite list_lookup_insert_eq by (rewrite length_imap; lia).
      rewrite Hb. simpl. destruct (decide (n < S n)); [done|lia].
    + rewrite list_lookup_insert_ne by done. rewrite list_lookup_imap.
      destruct (CrowdSimulation.boids_ sim !! k); [simpl|done].
      destruct (decide (k < n)), (decide (k < S n)); try lia; done.
Qed.

(** After the rebuild loop every boid holds the snapshot [findNeighbors]
    computes on the store the tick started from, and nothing else changed. *)
Lemma rebuild_eq (sim : CrowdSimulation.t F) :
  CrowdSimulation.rebuild sim
  = CrowdSimulation.with_boids sim
      (imap (fun k b => Boid.setNeighbors b (CrowdSimulation.findNeighbors sim k))
            (CrowdSimulation.boids_ sim)).
Proof.
  unfold CrowdSimulation.rebuild. rewrite rebuild_prefix by done. f_equal.
  apply imap_ext. intros k b Hk. apply lookup_lt_Some in Hk.
  by destruct (decide (k < length (CrowdSimulation.boids_ sim))).
Qed.

Lemma update_neighbors (h : list (Boid.t F)) (self : Boid.t F) (deltaTime : F) :
  Boid.neighbors_ (Boid.update h self deltaTime) = Boid.neighbors_ self.
Proof. reflexivity. Qed.

Lemma applyBoundaryForces_neighbors (sim : CrowdSimulation.t F) (b : Boid.t F) :
  Boid.neighbors_ (CrowdSimulation.applyBoundaryForces sim b) = Boid.neighbors_ b.
Proof.
  unfold CrowdSimulation.applyBoundaryForces. by destruct (fltb _ _).
Qed.

(** The movement loop leaves every snapshot as the rebuild made it. *)
Lemma move_step_neighbors (deltaTime : F) (sim : CrowdSimulation.t F) (i : nat) :
  Boid.neighbors_ <$> CrowdSimulation.boids_ (CrowdSimulation.move_step deltaTime sim i)
  = Boid.neighbors_ <$> CrowdSimulation.boids_ sim.
Proof.
  unfold CrowdSimulation.move_step.
  destruct (CrowdSimulation.boids_ sim !! i) as [b|] eqn:Hi; [|done].
  simpl. rewrite list_fmap_insert, applyBoundaryForces_neighbors, update_neighbors.
  apply list_insert_id. by rewrite list_lookup_fmap, Hi.
Qed.

Lemma move_neighbors (deltaTime : F) (l : list nat) : forall sim : CrowdSimulation.t F,
  Boid.neighbors_ <$> CrowdSimulation.boids_ (foldl (CrowdSimulation.move_step deltaTime) sim l)
  = Boid.neighbors_ <$> CrowdSimulation.boids_ sim.
Proof.
  induction l as [|i l IH]; intros sim; [done|].
  rewrite foldl_cons, IH. apply move_step_neighbors.
Qed.

(** The snapshots a tick leaves in the boids. *)
Lemma update_snapshots (sim : CrowdSimulation.t F) (deltaTime : F) :
  Boid.neighbors_ <$> CrowdSimulation.boids_ (CrowdSimulation.update sim deltaTime)
  = (fun i => CrowdSimulation.findNeighbors sim i)
      <$> seq 0 (length (CrowdSimulation.boids_ sim)).
Proof.
  unfold CrowdSimulation.update, CrowdSimulation.move.
  rewrite move_neighbors, rebuild_eq. simpl.
  rewrite fmap_imap. apply (imap_seq_0 (CrowdSimulation.boids_ sim)
                                        (fun i => CrowdSimulation.findNeighbors sim i)).
Qed.

Lemma update_snapshot_lookup (sim : CrowdSimulation.t F) (deltaTime : F)
    (i : nat) (b' : Boid.t F) :
  CrowdSimulation.boids_ (CrowdSimulation.update sim deltaTime) !! i = Some b' ->
  Boid.neighbors_ b' = CrowdSimulation.findNeighbors sim i.
Proof.
  intros Hi.
  assert (Hn : (Boid.neighbors_ <$> CrowdSimulation.boids_ (CrowdSimulation.update sim deltaTime))
               !! i = Some (Boid.neighbors_ b')) by (by rewrite list_lookup_fmap, Hi).
  rewrite update_snapshots, list_lookup_fmap in Hn.
  destruct (seq 0 _ !! i) as [k|] eqn:Hk; [|done].
  apply lookup_seq in Hk as [-> _]. simpl in Hn. by injection Hn.
Qed.

Lemma update_length (sim : CrowdSimulation.t F) (deltaTime : F) :
  length (CrowdSimulation.boids_ (CrowdSimulation.update sim deltaTime))
  = length (CrowdSimulation.boids_ sim).
Proof.
  rewrite <- (length_fmap Boid.neighbors_), update_snapshots, length_fmap.
  apply length_seq.
Qed.
End Tick.

Lemma within_comm (r : f32) (a b : Boid.t f32) : within r a b = within r b a.
Proof. unfold within. by rewrite distance_comm. Qed.

Lemma findNeighbors_symmetric (sim : CrowdSimulation.t f32) (i j : nat) :
  j ∈ CrowdSimulation.findNeighbors sim i <-> i ∈ CrowdSimulation.findNeighbors sim j.
Proof.
  rewrite !findNeighbors_elem. split.
  - intros (a & b & Ha & Hb & Hne & Hw). exists b, a. rewrite within_comm. eauto.
  - intros (a & b & Ha & Hb & Hne & Hw). exists b, a. rewrite within_comm. eauto.
Qed.

(** C3: in the store one call of [CrowdSimulation::update] produces, every
    boid's snapshot is [findNeighbors] evaluated on the store the tick
    started from (all snapshots are assigned before any boid moves, and the
    movement loop does not touch them), and the relation they define is
    symmetric: the boid at [j] is in the snapshot of the boid at [i] if and
    only if the boid at [i] is in the snapshot of the boid at [j]. *)
Theorem update_snapshots_pre_tick_symmetric
    (sim : CrowdSimulation.t f32) (deltaTime : f32) :
  let sim' := CrowdSimulation.update sim deltaTime in
  length (CrowdSimulation.boids_ sim') = length (CrowdSimulation.boids_ sim) /\
  (forall i b', CrowdSimulation.boids_ sim' !! i = Some b' ->
                Boid.neighbors_ b' = CrowdSimulation.findNeighbors sim i) /\
  (forall i j bi bj,
      CrowdSimulation.boids_ sim' !! i = Some bi ->
      CrowdSimulation.boids_ sim' !! j = Some bj ->
      (j ∈ Boid.neighbors_ bi <-> i ∈ Boid.neighbors_ bj)).
Proof.
  split; [apply update_length|]. split; [apply update_snapshot_lookup|].
  intros i j bi bj Hi Hj.
  rewrite (update_snapshot_lookup _ _ _ _ Hi), (update_snapshot_lookup _ _ _ _ Hj).
  apply findNeighbors_symmetric.
Qed.

(** C3 on three boids in line: after one tick the snapshots are [[1]],
    [[0]] and [[]]. *)
Lemma update_snapshots_pre_tick_symmetric_witness :
  Boid.neighbors_
    <$> CrowdSimulation.boids_ (CrowdSimulation.update Scenario.line (B32.lit 1 10))
  = [[1]; [0]; []] /\
  match CrowdSimulation.boids_ (CrowdSimulation.update Scenario.line (B32.lit 1 10)) !! 0,
        CrowdSimulation.boids_ (CrowdSimulation.update Scenario.line (B32.lit 1 10)) !! 1
  with
  | Some a, Some b => 1 ∈ Boid.neighbors_ a <-> 0 ∈ Boid.neighbors_ b
  | _, _ => False
  end.
Proof.
  split; [vm_compute; reflexivity|].
  destruct (update_snapshots_pre_tick_symmetric Scenario.line (B32.lit 1 10))
    as (_ & _ & Hsym).
  destruct (CrowdSimulation.boids_ (CrowdSimulation.update Scenario.line (B32.lit 1 10)) !! 0)
    as [a|] eqn:Ea; [|vm_compute in Ea; discriminate].
  destruct (CrowdSimulation.boids_ (CrowdSimulation.update Scenario.line (B32.lit 1 10)) !! 1)
    as [b|] eqn:Eb; [|vm_compute in Eb; discriminate].
  exact (Hsym 0 1 a b Ea Eb).
Defined.

(** ** Which boids a snapshot holds *)

Lemma sub_diag_finite (x : f32) : B32.is_finite x = true -> B32.sub x x = S754_zero false.
Proof.
  destruct x as [[]|[]| |s m e]; simpl; try discriminate; try reflexivity.
  intros _. unfold B32.sub; simpl. by rewrite Z.sub_diag.
Qed.

Lemma distance_self_finite (p : Vector3D.t f32) :
  finite3 p = true -> Vector3D.magnitude (Vector3D.sub p p) = S754_zero false.
Proof.
  unfold finite3. rewrite !andb_true_iff. intros [[Hx Hy] Hz].
  rewrite magnitude3_eq. unfold Vector3D.sub; simpl.
  by rewrite !sub_diag_finite.
Qed.

(** C4, counterexample: two distinct boids at (1, 2, 3).  Their distance
    is 0, not [> 0], and each is in the list [findNeighbors] returns for
    the other. *)
Lemma findNeighbors_coincident_counterexample :
  CrowdSimulation.findNeighbors Scenario.coincident 0 = [1] /\
  CrowdSimulation.findNeighbors Scenario.coincident 1 = [0] /\
  (forall a b, CrowdSimulation.boids_ Scenario.coincident !! 0 = Some a ->
               CrowdSimulation.boids_ Scenario.coincident !! 1 = Some b ->
               Vector3D.magnitude (Vector3D.sub (Boid.getPosition a) (Boid.getPosition b))
               = S754_zero false).
Proof.
  split; [reflexivity|]. split; [reflexivity|].
  intros a b [= <-] [= <-]. reflexivity.
Qed.

(** C4, as amended: [findNeighbors] puts the boid at pointer [j] in the
    list of the boid at pointer [i] exactly when both are in [boids_], [j]
    is another object than [i] (pointer identity, not distance), and their
    distance is [<= neighborRadius_].  There is no [0 < distance] test: a
    distinct boid at the very same (finite) position is included whenever
    [0 <= neighborRadius_]. *)
Theorem findNeighbors_membership (sim : CrowdSimulation.t f32) (i j : nat) :
  (j ∈ CrowdSimulation.findNeighbors sim i <->
   exists this other,
     CrowdSimulation.boids_ sim !! i = Some this /\
     CrowdSimulation.boids_ sim !! j = Some other /\
     j <> i /\
     SFleb (Vector3D.magnitude
              (Vector3D.sub (Boid.getPosition this) (Boid.getPosition other)))
           (CrowdSimulation.neighborRadius_ sim) = true) /\
  (forall this other,
     CrowdSimulation.boids_ sim !! i = Some this ->
     CrowdSimulation.boids_ sim !! j = Some other ->
     j <> i ->
     Boid.getPosition other = Boid.getPosition this ->
     finite3 (Boid.getPosition this) = true ->
     SFleb (of_int 0) (CrowdSimulation.neighborRadius_ sim) = true ->
     j ∈ CrowdSimulation.findNeighbors sim i).
Proof.
  split; [exact (findNeighbors_elem sim i j)|].
  intros this other Hi Hj Hne Hp Hfin Hr.
  apply findNeighbors_elem. exists this, other. repeat split; try done.
  unfold within. rewrite Hp, distance_self_finite by done. exact Hr.
Qed.

(** C4 on the two coincident boids. *)
Lemma findNeighbors_membership_witness :
  1 ∈ CrowdSimulation.findNeighbors Scenario.coincident 0.
Proof.
  destruct (findNeighbors_membership Scenario.coincident 0 1) as [_ Hsame].
  by eapply Hsame.
Defined.

(** ** The two separation loops *)

Lemma separation_step_agree (h : list (Boid.t f32)) (a : nat) (self : Boid.t f32)
    (acc : Vector3D.t f32 * Z) (n : nat) :
  h !! a = Some self ->
  Steering.Separation_step (Boid.separationRadius_ self) (Boid.agent <$> h) a
                           (Boid.agent self) acc n
  = Boid.separation_step h self acc n.
Proof.
  intros Ha. unfold Steering.Separation_step, Boid.separation_step.
  destruct acc as [steer count].
  destruct (decide (n = a)) as [->|Hne].
  - rewrite Ha. cbn [fltb binary32]. rewrite of_int_0, distance_self. reflexivity.
  - rewrite list_lookup_fmap. destruct (h !! n) as [nb|]; reflexivity.
Qed.

Lemma separation_fold_agree (h : list (Boid.t f32)) (a : nat) (self : Boid.t f32) :
  h !! a = Some self ->
  forall (ns : list nat) (acc : Vector3D.t f32 * Z),
    foldl (Steering.Separation_step (Boid.separationRadius_ self) (Boid.agent <$> h) a
                                    (Boid.agent self)) acc ns
    = foldl (Boid.separation_step h self) acc ns.
Proof.
  intros Ha ns. induction ns as [|n ns IH]; intros acc; [done|].
  rewrite !foldl_cons, separation_step_agree by done. apply IH.
Qed.

(** An iteration either counts a neighbour that passed the test, or
    leaves the accumulator as it is. *)
Lemma separation_step_cases (h : list (Boid.t f32)) (self : Boid.t f32)
    (steer : Vector3D.t f32) (count : Z) (n : nat) :
  (exists nb steer', h !! n = Some nb /\ separates self nb = true /\
                     Boid.separation_step h self (steer, count) n = (steer', (count + 1)%Z)) \/
  (Boid.separation_step h self (steer, count) n = (steer, count) /\
   forall nb, h !! n = Some nb -> separates self nb = false).
Proof.
  unfold Boid.separation_step, separates. destruct (h !! n) as [nb|].
  - cbv zeta. cbn [fltb binary32]. destruct (SFltb _ _ && SFltb _ _) eqn:Hs.
    + left. eexists nb, _. split; [done|split; done].
    + right. split; [done|]. by intros ? [= <-].
  - right. split; [done|]. discriminate.
Qed.

(** [count] is positive after the loop exactly when some neighbour passed
    the test. *)
Lemma separation_count (h : list (Boid.t f32)) (self : Boid.t f32) (ns : list nat) :
  forall (steer : Vector3D.t f32) (count : Z),
    (count <= (foldl (Boid.separation_step h self) (steer, count) ns).2)%Z /\
    ((count < (foldl (Boid.separation_step h self) (steer, count) ns).2)%Z <->
     exists n nb, n ∈ ns /\ h !! n = Some nb /\ separates self nb = true).
Proof.
  induction ns as [|n ns IH]; intros steer count.
  - simpl. split; [lia|]. split; [lia|].
    intros (n & nb & Hn & _). by apply elem_of_nil in Hn.
  - rewrite foldl_cons.
    destruct (separation_step_cases h self steer count n)
      as [(nb & steer' & Hn & Hs & ->)|[-> Hno]].
    + destruct (IH steer' (count + 1)%Z) as [Hle _].
      split; [lia|]. split; [|lia].
      intros _. exists n, nb. split; [apply list_elem_of_here|done].
    + destruct (IH steer count) as [Hle Hiff]. split; [done|].
      rewrite Hiff. split.
      * intros (n' & nb' & Hin & Hl & Hs). exists n', nb'.
        split; [by apply list_elem_of_further|done].
      * intros (n' & nb' & Hin & Hl & Hs).
        apply elem_of_cons in Hin as [->|Hin]; [|eauto].
        rewrite (Hno _ Hl) in Hs. discriminate.
Qed.

(** C7: for a boid [self] stored at pointer [a], with the same separation
    radius and the same neighbour list on both sides:
    [SeparationBehavior::calculate] returns [Boid::calculateSeparation]
    minus the current velocity when some neighbour is at a distance [d]
    with [0 < d < separationRadius_], and both return the zero vector
    otherwise. *)
Theorem separation_variants (h : list (Boid.t f32)) (a : nat) (self : Boid.t f32) :
  h !! a = Some self ->
  let controller :=
    Steering.Separation_calculate (Boid.separationRadius_ self) (Boid.agent <$> h) a
                                  (Boid.agent self) (Boid.neighbors_ self) in
  let inlined := Boid.calculateSeparation h self in
  ((exists n nb, n ∈ Boid.neighbors_ self /\ h !! n = Some nb /\ separates self nb = true) ->
   controller = Vector3D.sub inlined (Boid.getVelocity self)) /\
  (~ (exists n nb, n ∈ Boid.neighbors_ self /\ h !! n = Some nb /\ separates self nb = true) ->
   controller = Vector3D.zero /\ inlined = Vector3D.zero).
Proof.
  intros Ha controller inlined. subst controller inlined.
  unfold Steering.Separation_calculate, Boid.calculateSeparation.
  rewrite separation_fold_agree by done.
  destruct (separation_count h self (Boid.neighbors_ self) Vector3D.zero 0) as [Hle Hiff].
  destruct (foldl _ _ _) as [steer count] eqn:Hfold. simpl in Hle, Hiff.
  split.
  - intros Hex. apply Hiff in Hex.
    assert ((count >? 0)%Z = true) as -> by (rewrite Z.gtb_ltb; apply Z.ltb_lt; lia).
    reflexivity.
  - intros Hno.
    assert (Hc : ~ (0 < count)%Z) by (by rewrite Hiff).
    assert ((count >? 0)%Z = false) as -> by (rewrite Z.gtb_ltb; apply Z.ltb_ge; lia).
    (* no neighbour passed: the accumulator is still the initial one *)
    clear Hle Hiff. revert Hfold.
    assert (Hkeep : forall ns acc,
               (forall n nb, n ∈ ns -> h !! n = Some nb -> separates self nb = false) ->
               foldl (Boid.separation_step h self) acc ns = acc).
    { induction ns as [|n ns IH]; intros acc Hall; [done|].
      rewrite foldl_cons.
      assert (Boid.separation_step h self acc n = acc) as ->.
      { destruct acc as [s c].
        destruct (separation_step_cases h self s c n)
          as [(nb & steer' & Hn & Hs & _)|[-> _]]; [|done].
        rewrite (Hall n nb (list_elem_of_here _ _) Hn) in Hs. discriminate. }
      apply IH. intros n' nb' Hin. apply Hall. by apply list_elem_of_further. }
    rewrite Hkeep.
    + intros [= <- ]. done.
    + intros n nb Hin Hl. destruct (separates self nb) eqn:Hs; [|done].
      exfalso. apply Hno. eauto.
Qed.

(** C7 on the pair, with the boid's own pointer in the neighbour list:
    the inlined variant gives (-10, 0, 0), the controller variant
    (-12, 0, 0), the velocity being (2, 0, 0). *)
Lemma separation_variants_witness :
  Steering.Separation_calculate (flt 2 1) (Boid.agent <$> Scenario.pair) 0
    (Boid.agent (Scenario.boid "a" (Scenario.V 0 0 0) (Scenario.V 2 0 0))) [1; 0]
  = Scenario.V (-12) 0 0.
Proof.
  destruct (separation_variants Scenario.pair 0
              (Boid.setNeighbors (Scenario.boid "a" (Scenario.V 0 0 0) (Scenario.V 2 0 0)) [1; 0])
              eq_refl) as [Hsome _].
  etransitivity; [apply Hsome|reflexivity].
  exists 1, (Boid.setNeighbors (Scenario.boid "b" (Scenario.V 1 0 0) (Scenario.V (-1) 0 0)) [0]).
  split; [|split; reflexivity].
  apply list_elem_of_here.
Defined.

(** ** Zeros and additions of zeros at [binary32] *)

Lemma same_refl (a : f32) : same a a.
Proof. by left. Qed.








(** ** A boid without neighbours *)

Section EmptySnapshot.
Context {F : Type} {FO : FloatOps F}.



End EmptySnapshot.





(** ** Boundary containment *)

(** C2, counterexample: the default simulation (boundary -50 .. 50, margin
    5) with a single boid at rest at x = -45, which is exactly
    [boundaryMin_.x + margin].  After one tick with [deltaTime = 0.1f] its
    velocity is still zero: the test is the strict [position.x <
    boundaryMin_.x + margin]. *)
Lemma containment_at_margin_counterexample :
  B32.add (Vector3D.x (CrowdSimulation.boundaryMin_ (Scenario.lone (-45)))) (B32.lit 5 1)
  = B32.of_Z (-45) /\
  Boid.getPosition <$> CrowdSimulation.boids_ (Scenario.lone (-45))
  = [Scenario.V (-45) 0 0] /\
  Boid.getVelocity
    <$> CrowdSimulation.boids_ (CrowdSimulation.update (Scenario.lone (-45)) (B32.lit 1 10))
  = [Scenario.V 0 0 0].
Proof. repeat split; reflexivity. Qed.

Lemma boundaryForce_axes (sim : CrowdSimulation.t f32) (p : Vector3D.t f32) :
  let force := CrowdSimulation.boundaryForce sim p in
  Vector3D.x force
  = axis_force (Vector3D.x p) (Vector3D.x (CrowdSimulation.boundaryMin_ sim))
               (Vector3D.x (CrowdSimulation.boundaryMax_ sim)) /\
  Vector3D.y force
  = axis_force (Vector3D.y p) (Vector3D.y (CrowdSimulation.boundaryMin_ sim))
               (Vector3D.y (CrowdSimulation.boundaryMax_ sim)) /\
  Vector3D.z force
  = axis_force (Vector3D.z p) (Vector3D.z (CrowdSimulation.boundaryMin_ sim))
               (Vector3D.z (CrowdSimulation.boundaryMax_ sim)).
Proof.
  unfold CrowdSimulation.boundaryForce, axis_force.
  cbn [fltb fadd fsub binary32 flt].
  change (B32.lit 5 1) with (B32.of_Z 5).
  repeat match goal with
         | |- context [SFltb ?a ?b] => destruct (SFltb a b)
         end;
    repeat split; reflexivity.
Qed.

(** C2, as amended.  On each axis the containment force is +20 when the
    position is strictly below [min + 5] only, -20 when it is strictly
    above [max - 5] only, and 0 otherwise (at exactly [min + 5] there is no
    force).  When the magnitude of the force is positive,
    [applyBoundaryForces] adds [force * 0.016f] to the velocity; it has no
    [deltaTime] parameter.  In [update] it is applied to each boid after
    that boid's [Boid::update].  For a single boid at rest at x = -46 (one
    unit inside the margin) the velocity after one tick is
    [(20 * 0.016f, 0, 0)] whatever the finite [deltaTime]; at x = -45 it
    stays zero. *)
Theorem boundary_containment :
  (forall (sim : CrowdSimulation.t f32) (boid : Boid.t f32),
     let force := CrowdSimulation.boundaryForce sim (Boid.getPosition boid) in
     Vector3D.x force
     = axis_force (Vector3D.x (Boid.getPosition boid))
                  (Vector3D.x (CrowdSimulation.boundaryMin_ sim))
                  (Vector3D.x (CrowdSimulation.boundaryMax_ sim)) /\
     Vector3D.y force
     = axis_force (Vector3D.y (Boid.getPosition boid))
                  (Vector3D.y (CrowdSimulation.boundaryMin_ sim))
                  (Vector3D.y (CrowdSimulation.boundaryMax_ sim)) /\
     Vector3D.z force
     = axis_force (Vector3D.z (Boid.getPosition boid))
                  (Vector3D.z (CrowdSimulation.boundaryMin_ sim))
                  (Vector3D.z (CrowdSimulation.boundaryMax_ sim)) /\
     CrowdSimulation.applyBoundaryForces sim boid
     = if SFltb (S754_zero false) (Vector3D.magnitude force)
       then Boid.setVelocity boid
              (Vector3D.add (Boid.getVelocity boid) (Vector3D.scale force containment_dt))
       else boid) /\
  (forall (sim : CrowdSimulation.t f32) (deltaTime : f32) (i : nat) (this : Boid.t f32),
     CrowdSimulation.boids_ sim !! i = Some this ->
     CrowdSimulation.boids_ (CrowdSimulation.move_step deltaTime sim i)
     = <[i := CrowdSimulation.applyBoundaryForces sim
                (Boid.update (CrowdSimulation.boids_ sim) this deltaTime)]>
         (CrowdSimulation.boids_ sim)) /\
  (forall deltaTime : f32,
     B32.is_finite deltaTime = true ->
     Boid.getVelocity
       <$> CrowdSimulation.boids_ (CrowdSimulation.update (Scenario.lone (-46)) deltaTime)
     = [Vector3D.mk (B32.mul (B32.of_Z 20) containment_dt) (S754_zero false) (S754_zero false)]
     /\
     Boid.getVelocity
       <$> CrowdSimulation.boids_ (CrowdSimulation.update (Scenario.lone (-45)) deltaTime)
     = [Vector3D.mk (S754_zero false) (S754_zero false) (S754_zero false)]).
Proof.
  split; [|split].
  - intros sim boid force.
    destruct (boundaryForce_axes sim (Boid.getPosition boid)) as (Hx & Hy & Hz).
    repeat split; try done.
  - intros sim deltaTime i this Hi. unfold CrowdSimulation.move_step. by rewrite Hi.
  - intros deltaTime Hdt.
    destruct deltaTime as [[]|[]| |[] m e]; try discriminate; split; vm_compute; reflexivity.
Qed.

(** C2 at [deltaTime = 0.1f]: the velocity is (0.32, 0, 0),
    [10737419 * 2^-25] being [20 * 0.016f]. *)
Lemma boundary_containment_witness :
  Boid.getVelocity
    <$> CrowdSimulation.boids_ (CrowdSimulation.update (Scenario.lone (-46)) (B32.lit 1 10))
  = [Vector3D.mk (S754_finite false 10737419 (-25)) (S754_zero false) (S754_zero false)].
Proof.
  destruct boundary_containment as (_ & _ & Htick).
  destruct (Htick (B32.lit 1 10) eq_refl) as [Hin _].
  exact Hin.
Defined.

(** ** The vector kernel in exact arithmetic *)

Section ExactVectors.
Local Open Scope R_scope.











End ExactVectors.

(** ** Speed and force caps *)




(** ** The metrics of [EmergentBehaviorDetector] *)

Section ExactMetrics.
Local Open Scope R_scope.











End ExactMetrics.





(** ** Avoidance at an obstacle's position *)

(** C6, the failing input: [AvoidanceBehavior(4.0f)] with one obstacle of
    radius 1 registered exactly where the agent stands, no neighbours.
    The distance is 0, which passes [distance < totalRadius +
    avoidanceRadius_]; [diff.normalized()] is the zero vector and the
    factor [(totalRadius + avoidanceRadius_) / distance] is +infinity, so
    [diff] and then [steer] are NaN in every component; [steer.magnitude()
    > 0] is false for NaN and the NaN vector is returned.  The loop over
    agents has the guard [distance > 0] that the loop over obstacles
    misses: with a second agent at the same point instead of the obstacle
    the result is the zero vector. *)
Lemma avoidance_coincident_obstacle_nan :
  Agent.position_ Scenario.blocked = Steering.position Scenario.obstacle_here /\
  Steering.Avoidance_calculate (B32.of_Z 4) [Scenario.obstacle_here]
    [Scenario.blocked] 0 Scenario.blocked []
  = Vector3D.mk S754_nan S754_nan S754_nan /\
  Steering.Avoidance_calculate (B32.of_Z 4) []
    [Scenario.blocked; Scenario.twin] 0 Scenario.blocked [1]
  = Vector3D.mk (S754_zero false) (S754_zero false) (S754_zero false).
Proof. repeat split; vm_compute; reflexivity. Qed.
